(** * ChatWidget: the conversational session state of the ASAS-QS assistant

    A shallow embedding of [components/ChatWidget.tsx] and [types.ts]:
    the persisted-state load, the session initialiser, the send cycle of
    [handleSendMessage] and the speech-recognition callbacks, with the
    properties of the specification proved about them.

    Conventions.
    - A JavaScript string is its sequence of UTF-16 code units ([jsstring]).
    - Code that can throw returns a [Result]; [try_catch] is the
      [try { .. } catch (e) { .. }] statement.
    - The external collaborators (the JSON parser of the platform, the
      generative-AI SDK, the speech recogniser) are parameters or events:
      the component is verified for every behaviour they may have. *)

From Stdlib Require Import String Ascii NArith.
From stdpp Require Import base option list gmap.

Set Warnings "-register-all".
Open Scope N_scope.

(* ===================================================================== *)
(** ** JavaScript strings *)
(* ===================================================================== *)

(** A string is a sequence of UTF-16 code units. *)
Abbreviation jsstring := (list N).

Definition code (a : ascii) : N := N_of_ascii a.

(** The string literal [s] of the source (all the literals are ASCII). *)
Definition js (s : string) : jsstring := code <$> list_ascii_of_string s.

(** JSON text written with apostrophes for its double quotes. *)
Definition json_text (s : string) : jsstring :=
  (λ c, if c =? 39 then 34 else c) <$> js s.

(** [ToBoolean] on a string: the empty string is the only falsy one. *)
Definition truthy (s : jsstring) : bool :=
  match s with [] => false | _ :: _ => true end.

(** [WhiteSpace] and [LineTerminator] code points of ECMAScript, the ones
    [String.prototype.trim] strips. *)
Definition isWhiteSpace (c : N) : bool :=
  (c =? 9) || (c =? 10) || (c =? 11) || (c =? 12) || (c =? 13) || (c =? 32)
  || (c =? 160) || (c =? 5760) || ((8192 <=? c) && (c <=? 8202))
  || (c =? 8232) || (c =? 8233) || (c =? 8239) || (c =? 8287)
  || (c =? 12288) || (c =? 65279).

Fixpoint trimStart (s : jsstring) : jsstring :=
  match s with
  | c :: s' => if isWhiteSpace c then trimStart s' else s
  | [] => []
  end.

Definition trimEnd (s : jsstring) : jsstring := rev (trimStart (rev s)).

(** [s.trim()] *)
Definition trim (s : jsstring) : jsstring := trimEnd (trimStart s).

(* ===================================================================== *)
(** ** Exceptions *)
(* ===================================================================== *)

Inductive JSError : Type :=
  | SyntaxError                      (* thrown by JSON.parse *)
  | SecurityError                    (* storage access denied *)
  | Error (message : jsstring).      (* anything else *)

Inductive Result (A : Type) : Type :=
  | Ok (a : A)
  | Throw (e : JSError).
Arguments Ok {A} a.
Arguments Throw {A} e.

#[global] Instance Result_ret : MRet Result := fun A a => Ok a.
#[global] Instance Result_bind : MBind Result := fun A B f r =>
  match r with
  | Ok a => f a
  | Throw e => Throw e
  end.

(** [try { body } catch (e) { handler e }] *)
Definition try_catch {A} (body : Result A) (handler : JSError -> Result A)
  : Result A :=
  match body with
  | Ok a => Ok a
  | Throw e => handler e
  end.

(* ===================================================================== *)
(** ** types.ts *)
(* ===================================================================== *)

Inductive Role : Type := user | model | error.

#[global] Instance Role_eq_dec : EqDecision Role.
Proof. solve_decision. Defined.

Record Source : Type := { uri : jsstring; title : jsstring }.

(** [sources?:] is an optional property: [None] is the omitted property. *)
Record Message : Type := {
  role : Role;
  content : jsstring;
  sources : option (list Source);
}.

(* ===================================================================== *)
(** ** JSON values *)
(* ===================================================================== *)

(** What [JSON.parse] returns. A number keeps its lexeme, an object the
    list of its members as written. *)
Inductive JSON : Type :=
  | JNull
  | JBool (b : bool)
  | JNumber (lexeme : jsstring)
  | JString (s : jsstring)
  | JArray (elements : list JSON)
  | JObject (members : list (jsstring * JSON)).

Definition Role_to_string (r : Role) : jsstring :=
  match r with
  | user => js "user"
  | model => js "model"
  | error => js "error"
  end.

Definition Source_to_JSON (s : Source) : JSON :=
  JObject [(js "uri", JString (uri s)); (js "title", JString (title s))].

(** The object a [Message] is at run time (an omitted property has no
    member). *)
Definition Message_to_JSON (m : Message) : JSON :=
  JObject ([(js "role", JString (Role_to_string (role m)));
            (js "content", JString (content m))]
           ++ match sources m with
              | Some l => [(js "sources", JArray (Source_to_JSON <$> l))]
              | None => []
              end).

(** Property access [o.k] on a parsed object: the last member written with
    that key, [None] for [undefined]. *)
Definition get (k : jsstring) (v : JSON) : option JSON :=
  match v with
  | JObject ms => snd <$> last (filter (λ m, fst m = k) ms)
  | _ => None
  end.

Definition is_string (o : option JSON) : bool :=
  match o with Some (JString _) => true | _ => false end.

Definition is_Role (o : option JSON) : bool :=
  match o with
  | Some (JString s) =>
      bool_decide (s = js "user" ∨ s = js "model" ∨ s = js "error")
  | _ => false
  end.

Definition is_Source (v : JSON) : bool :=
  is_string (get (js "uri") v) && is_string (get (js "title") v).

(** The run-time value has the type [Message] of [types.ts]. *)
Definition is_Message (v : JSON) : bool :=
  is_Role (get (js "role") v) && is_string (get (js "content") v)
  && match get (js "sources") v with
     | None => true
     | Some (JArray l) => forallb is_Source l
     | Some _ => false
     end.

(** The stored transcript has a valid structure when it is a sequence of
    Messages. *)
Definition valid_structure (v : JSON) : bool :=
  match v with
  | JArray l => forallb is_Message l
  | _ => false
  end.

(* ===================================================================== *)
(** ** JSON.parse *)
(* ===================================================================== *)

(** The grammar of ECMA-404 by recursive descent over the code units. The
    component is verified for every parser (see [Section Load]); this one
    makes the examples run. *)
Module JSONParser.

Definition is_ws (c : N) : bool :=
  (c =? 32) || (c =? 9) || (c =? 10) || (c =? 13).

Fixpoint skip_ws (l : jsstring) : jsstring :=
  match l with
  | c :: l' => if is_ws c then skip_ws l' else l
  | [] => []
  end.

Definition is_digit (c : N) : bool := (48 <=? c) && (c <=? 57).

Definition hex (c : N) : option N :=
  if is_digit c then Some (c - 48)
  else if (97 <=? c) && (c <=? 102) then Some (c - 87)
  else if (65 <=? c) && (c <=? 70) then Some (c - 55)
  else None.

(** The character an escape [\e] stands for. *)
Definition unescape (e : N) : option N :=
  if e =? code "b" then Some 8
  else if e =? code "f" then Some 12
  else if e =? code "n" then Some 10
  else if e =? code "r" then Some 13
  else if e =? code "t" then Some 9
  else if (e =? 34) || (e =? 92) || (e =? code "/") then Some e
  else None.

(** The characters of a string, after its opening quote. *)
Fixpoint chars (l : jsstring) : option (jsstring * jsstring) :=
  match l with
  | [] => None
  | c :: l1 =>
      if c =? 34 then Some ([], l1)
      else if c =? 92 then
        match l1 with
        | [] => None
        | e :: l2 =>
            if e =? code "u" then
              match l2 with
              | h1 :: h2 :: h3 :: h4 :: l3 =>
                  a ← hex h1; b ← hex h2; c' ← hex h3; d ← hex h4;
                  '(s, r) ← chars l3;
                  Some ((((a * 16 + b) * 16 + c') * 16 + d) :: s, r)
              | _ => None
              end
            else
              ch ← unescape e; '(s, r) ← chars l2; Some (ch :: s, r)
        end
      else if c <? 32 then None
      else '(s, r) ← chars l1; Some (c :: s, r)
  end.

Fixpoint digits (l : jsstring) : jsstring * jsstring :=
  match l with
  | c :: l' =>
      if is_digit c then let '(d, r) := digits l' in (c :: d, r) else ([], l)
  | [] => ([], [])
  end.

(** One or more digits. *)
Definition digits1 (l : jsstring) : option (jsstring * jsstring) :=
  match digits l with
  | ([], _) => None
  | (d, r) => Some (d, r)
  end.

(** An optional character among [cs]. *)
Definition opt (cs : jsstring) (l : jsstring) : jsstring * jsstring :=
  match l with
  | c :: l' => if bool_decide (c ∈ cs) then ([c], l') else ([], l)
  | [] => ([], [])
  end.

Definition int (l : jsstring) : option (jsstring * jsstring) :=
  match l with
  | c :: l' =>
      if c =? 48 then Some ([c], l')
      else if is_digit c then let '(d, r) := digits l' in Some (c :: d, r)
      else None
  | [] => None
  end.

Definition frac (l : jsstring) : option (jsstring * jsstring) :=
  match opt (js ".") l with
  | ([], _) => Some ([], l)
  | (dot, l') => '(d, r) ← digits1 l'; Some (dot ++ d, r)
  end.

Definition exp (l : jsstring) : option (jsstring * jsstring) :=
  match opt (js "eE") l with
  | ([], _) => Some ([], l)
  | (e, l') =>
      let '(sign, l'') := opt (js "+-") l' in
      '(d, r) ← digits1 l''; Some (e ++ sign ++ d, r)
  end.

Definition number (l : jsstring) : option (JSON * jsstring) :=
  let '(sign, l1) := opt (js "-") l in
  '(i, l2) ← int l1; '(f, l3) ← frac l2; '(e, l4) ← exp l3;
  Some (JNumber (sign ++ i ++ f ++ e), l4).

(** [l] without its prefix [p]. *)
Fixpoint keyword (p l : jsstring) : option jsstring :=
  match p, l with
  | [], _ => Some l
  | a :: p', b :: l' => if a =? b then keyword p' l' else None
  | _ :: _, [] => None
  end.

(** [value]; [elements] and [members] read what follows the opening
    bracket of a non-empty array or object. [fuel] bounds the depth of the
    calls; a text that needs more is rejected. *)
Fixpoint value (fuel : nat) (l : jsstring) : option (JSON * jsstring) :=
  match fuel with
  | O => None
  | S fuel =>
      match skip_ws l with
      | [] => None
      | c :: r =>
          if c =? code "{" then
            match skip_ws r with
            | c' :: r' =>
                if c' =? code "}" then Some (JObject [], r')
                else '(ms, r'') ← members fuel r; Some (JObject ms, r'')
            | [] => None
            end
          else if c =? code "[" then
            match skip_ws r with
            | c' :: r' =>
                if c' =? code "]" then Some (JArray [], r')
                else '(vs, r'') ← elements fuel r; Some (JArray vs, r'')
            | [] => None
            end
          else if c =? 34 then '(s, r') ← chars r; Some (JString s, r')
          else if c =? code "t" then
            r' ← keyword (js "rue") r; Some (JBool true, r')
          else if c =? code "f" then
            r' ← keyword (js "alse") r; Some (JBool false, r')
          else if c =? code "n" then
            r' ← keyword (js "ull") r; Some (JNull, r')
          else number (c :: r)
      end
  end
with elements (fuel : nat) (l : jsstring) : option (list JSON * jsstring) :=
  match fuel with
  | O => None
  | S fuel =>
      '(v, r) ← value fuel l;
      match skip_ws r with
      | c :: r' =>
          if c =? code "," then
            '(vs, r'') ← elements fuel r'; Some (v :: vs, r'')
          else if c =? code "]" then Some ([v], r')
          else None
      | [] => None
      end
  end
with members (fuel : nat) (l : jsstring)
  : option (list (jsstring * JSON) * jsstring) :=
  match fuel with
  | O => None
  | S fuel =>
      match skip_ws l with
      | q :: r =>
          if q =? 34 then
            '(k, r1) ← chars r;
            match skip_ws r1 with
            | c :: r2 =>
                if c =? code ":" then
                  '(v, r3) ← value fuel r2;
                  match skip_ws r3 with
                  | d :: r4 =>
                      if d =? code "," then
                        '(ms, r5) ← members fuel r4; Some ((k, v) :: ms, r5)
                      else if d =? code "}" then Some ([(k, v)], r4)
                      else None
                  | [] => None
                  end
                else None
            | [] => None
            end
          else None
      | [] => None
      end
  end.

(** [JSON.parse(text)]: a value and nothing but white space after it, a
    [SyntaxError] otherwise. The fuel is two calls for each character. *)
Definition parse (text : jsstring) : Result JSON :=
  match value (2 * length text + 2) text with
  | Some (v, r) =>
      match skip_ws r with
      | [] => Ok v
      | _ :: _ => Throw SyntaxError
      end
  | None => Throw SyntaxError
  end.

End JSONParser.

(* ===================================================================== *)
(** ** sessionStorage *)
(* ===================================================================== *)

(** The storage of the browsing session: a map from keys to strings, or a
    storage the page is denied access to (every access throws). *)
Inductive Storage : Type :=
  | Denied (e : JSError)
  | Items (items : gmap jsstring jsstring).

(** [sessionStorage.getItem(key)]; [None] is [null]. *)
Definition getItem (st : Storage) (key : jsstring) : Result (option jsstring) :=
  match st with
  | Denied e => Throw e
  | Items items => Ok (items !! key)
  end.

(* ===================================================================== *)
(** ** The persisted-state load *)
(* ===================================================================== *)

Definition initialMessage : Message :=
  {| role := model;
     content := js "Hello! Welcome to ASASQS. I'm your friendly ASAS-QS AI Assistant. How can I help you with our quantity surveying services today?";
     sources := None |}.

Section Load.

(** The platform's [JSON.parse]. *)
Variable JSON_parse : jsstring -> Result JSON.

(** The initializer of the [messages] state. [return parsed] returns the
    array as it was parsed: its elements are run-time values that no
    code inspects. *)
Definition messages_init (sessionStorage : Storage) : Result (list JSON) :=
  try_catch
    (savedMessages ← getItem sessionStorage (js "chatWidgetMessages");
     match savedMessages with
     | Some savedMessages =>
         if truthy savedMessages then
           parsed ← JSON_parse savedMessages;
           match parsed with
           | JArray parsed =>
               if (0 <? length parsed)%nat then mret parsed
               else mret [Message_to_JSON initialMessage]
           | _ => mret [Message_to_JSON initialMessage]
           end
         else mret [Message_to_JSON initialMessage]
     | None => mret [Message_to_JSON initialMessage]
     end)
    (λ e, mret [Message_to_JSON initialMessage]).

(** The initializer of the [isOpen] state. *)
Definition isOpen_init (sessionStorage : Storage) : Result JSON :=
  try_catch
    (savedState ← getItem sessionStorage (js "chatWidgetIsOpen");
     match savedState with
     | Some savedState =>
         if truthy savedState then JSON_parse savedState
         else mret (JBool false)
     | None => mret (JBool false)
     end)
    (λ e, mret (JBool false)).

End Load.

(* ===================================================================== *)
(** ** The generative-AI SDK, as far as the component uses it *)
(* ===================================================================== *)

Module GenAI.

Record Part : Type := { text : jsstring }.

(** A turn of the history a session is created with. *)
Record Content : Type := { role : Role; parts : list Part }.

Record GoogleGenAIOptions : Type := { apiKey : option jsstring }.

Inductive Tool : Type := googleSearch.

Record ChatConfig : Type := {
  systemInstruction : jsstring;
  tools : list Tool;
}.

Record CreateChatParameters : Type := {
  model : jsstring;
  history : list Content;
  config : ChatConfig;
}.

Record SendMessageParameters : Type := { message : jsstring }.

(** Every property of the grounding data is optional. *)
Record GroundingChunkWeb : Type := {
  uri : option jsstring;
  title : option jsstring;
}.

Record GroundingChunk : Type := { web : option GroundingChunkWeb }.

Record GroundingMetadata : Type := {
  groundingChunks : option (list GroundingChunk);
}.

Record Candidate : Type := { groundingMetadata : option GroundingMetadata }.

Record GenerateContentResponse : Type := {
  candidates : option (list Candidate);
  response_text : jsstring;              (* the [text] accessor *)
}.

End GenAI.

Definition systemInstruction : jsstring :=
  js "You are the ASAS-QS AI Assistant, a friendly and professional customer assistant for ASASQS, a consulting Quantity Surveying firm based in Malaysia with the website www.asasqs.com.my. Your goal is to help users with their questions about ASASQS's services, company profile, and projects. The main services include Pre-Contract Services (like feasibility studies and cost planning), Post-Contract Services (like contract administration and final accounts), and Specialized Services (like due diligence and value engineering). Keep your answers concise, helpful, and polite. Do not make up information if you do not know the answer. If a user asks for a quote or detailed consultation, you should advise them to contact ASASQS directly through the contact information provided on their website.".

(* ===================================================================== *)
(** ** The component *)
(* ===================================================================== *)

Section ChatWidget.

(** The SDK's client and session objects, opaque to the component. *)
Context {GoogleGenAI Chat : Type}.

(** The state of the component: its [useState] cells and [chatRef]. *)
Record State : Type := {
  isOpen : bool;
  isLoading : bool;
  messages : list Message;
  userInput : jsstring;
  isRecording : bool;
  isSpeechRecognitionSupported : bool;
  chatRef : option Chat;
}.

(** The state setters. A setter takes the updater function; setting a
    value [v] is the updater [λ _, v]. *)
Definition setIsOpen (f : bool -> bool) (s : State) : State :=
  {| isOpen := f (isOpen s); isLoading := isLoading s;
     messages := messages s; userInput := userInput s;
     isRecording := isRecording s;
     isSpeechRecognitionSupported := isSpeechRecognitionSupported s;
     chatRef := chatRef s |}.

Definition setIsLoading (f : bool -> bool) (s : State) : State :=
  {| isOpen := isOpen s; isLoading := f (isLoading s);
     messages := messages s; userInput := userInput s;
     isRecording := isRecording s;
     isSpeechRecognitionSupported := isSpeechRecognitionSupported s;
     chatRef := chatRef s |}.

Definition setMessages (f : list Message -> list Message) (s : State)
  : State :=
  {| isOpen := isOpen s; isLoading := isLoading s;
     messages := f (messages s); userInput := userInput s;
     isRecording := isRecording s;
     isSpeechRecognitionSupported := isSpeechRecognitionSupported s;
     chatRef := chatRef s |}.

Definition setUserInput (f : jsstring -> jsstring) (s : State) : State :=
  {| isOpen := isOpen s; isLoading := isLoading s;
     messages := messages s; userInput := f (userInput s);
     isRecording := isRecording s;
     isSpeechRecognitionSupported := isSpeechRecognitionSupported s;
     chatRef := chatRef s |}.

Definition setIsRecording (f : bool -> bool) (s : State) : State :=
  {| isOpen := isOpen s; isLoading := isLoading s;
     messages := messages s; userInput := userInput s;
     isRecording := f (isRecording s);
     isSpeechRecognitionSupported := isSpeechRecognitionSupported s;
     chatRef := chatRef s |}.

Definition setIsSpeechRecognitionSupported (f : bool -> bool) (s : State)
  : State :=
  {| isOpen := isOpen s; isLoading := isLoading s;
     messages := messages s; userInput := userInput s;
     isRecording := isRecording s;
     isSpeechRecognitionSupported := f (isSpeechRecognitionSupported s);
     chatRef := chatRef s |}.

(** [chatRef.current = c] *)
Definition set_chatRef (c : option Chat) (s : State) : State :=
  {| isOpen := isOpen s; isLoading := isLoading s;
     messages := messages s; userInput := userInput s;
     isRecording := isRecording s;
     isSpeechRecognitionSupported := isSpeechRecognitionSupported s;
     chatRef := c |}.

(** The state of the first render, from the loaded values. *)
Definition initial_State (isOpen0 : bool) (messages0 : list Message)
  : State :=
  {| isOpen := isOpen0; isLoading := false; messages := messages0;
     userInput := []; isRecording := false;
     isSpeechRecognitionSupported := false; chatRef := None |}.

(** *** The session initialiser *)

(** [new GoogleGenAI(options)] and [ai.chats.create(params)]: either may
    throw. [API_KEY] is [process.env.API_KEY], [None] when it is not
    set. *)
Variable new_GoogleGenAI : GenAI.GoogleGenAIOptions -> Result GoogleGenAI.
Variable chats_create :
  GoogleGenAI -> GenAI.CreateChatParameters -> Result Chat.
Variable API_KEY : option jsstring.

(** The history a session is seeded with. *)
Definition history_of (messages : list Message) : list GenAI.Content :=
  (λ msg, {| GenAI.role := role msg;
             GenAI.parts := [{| GenAI.text := content msg |}] |})
  <$> List.filter
        (λ msg, bool_decide (role msg = user)
                || bool_decide (role msg = model))
        messages.

(** The argument of [ai.chats.create]. *)
Definition chatParameters (history : list GenAI.Content)
  : GenAI.CreateChatParameters :=
  {| GenAI.model := js "gemini-2.5-flash";
     GenAI.history := history;
     GenAI.config :=
       {| GenAI.systemInstruction := systemInstruction;
          GenAI.tools := [GenAI.googleSearch] |} |}.

Definition initFailureMessage : Message :=
  {| role := error;
     content := js "Failed to initialize the chat assistant. Please check the API key and configuration.";
     sources := None |}.

Definition initChat (s : State) : Result State :=
  try_catch
    (ai ← new_GoogleGenAI {| GenAI.apiKey := API_KEY |};
     let history := history_of (messages s) in
     chat ← chats_create ai (chatParameters history);
     mret (set_chatRef (Some chat) s))
    (λ e, mret (setMessages (λ prev, prev ++ [initFailureMessage]) s)).

(** *** The speech-recognition callbacks *)

(** [recognition.onresult]; [transcript] is
    [event.results[0][0].transcript]. *)
Definition onresult (transcript : jsstring) (s : State) : State :=
  setUserInput
    (λ prev, (if truthy prev then prev ++ js " " else []) ++ transcript) s.

Definition onstart (s : State) : State := setIsRecording (λ _, true) s.

Definition onend (s : State) : State := setIsRecording (λ _, false) s.

Definition microphoneMessage : Message :=
  {| role := error;
     content := js "Microphone access was denied. Please allow it in your browser settings to use voice input.";
     sources := None |}.

(** [recognition.onerror]; [code] is [event.error]. *)
Definition onerror (code : jsstring) (s : State) : State :=
  let s :=
    if bool_decide (code = js "not-allowed")
    then setMessages (λ prev, prev ++ [microphoneMessage]) s
    else s in
  setIsRecording (λ _, false) s.

(** *** The visibility toggle and the text area *)

Definition toggleChat (s : State) : State :=
  setIsOpen (λ _, negb (isOpen s)) s.

(** [onChange] of the text area; [value] is [e.target.value]. *)
Definition onChange (value : jsstring) (s : State) : State :=
  setUserInput (λ _, value) s.

(** *** The send cycle *)

(** An [async] function runs up to its [await] and is resumed when the
    awaited promise settles. The result of calling one is either
    [Resolved s], it ran to its end leaving the state [s], or
    [Awaiting s chat request k]: it left the state [s], called
    [chat.sendMessage(request)] and waits; [k outcome s'] resumes it with
    the outcome of the call in the state [s'] the component has by
    then. *)
Inductive Async : Type :=
  | Resolved (s : State)
  | Awaiting (s : State) (chat : Chat)
      (request : GenAI.SendMessageParameters)
      (k : Result GenAI.GenerateContentResponse -> State -> State).

(** [!!(web?.uri && web.title)] *)
Definition has_uri_and_title (web : option GenAI.GroundingChunkWeb) : bool :=
  match web with
  | Some web =>
      match GenAI.uri web, GenAI.title web with
      | Some u, Some t => truthy u && truthy t
      | _, _ => false
      end
  | None => false
  end.

(** The type guard of the filter gives its results the type of a source:
    a value that passed has both properties. *)
Definition as_Source (web : option GenAI.GroundingChunkWeb) : Source :=
  {| uri := default [] (web ≫= GenAI.uri);
     title := default [] (web ≫= GenAI.title) |}.

Definition errorMessage : Message :=
  {| role := error;
     content := js "Sorry, something went wrong. Please try again.";
     sources := None |}.

(** The [try] block after the [await]. *)
Definition modelMessage_of (response : GenAI.GenerateContentResponse)
  : Message :=
  let groundingMetadata :=
    (GenAI.candidates response ≫= head) ≫= GenAI.groundingMetadata in
  let sources :=
    (groundingMetadata ≫= GenAI.groundingChunks)
    ≫= (λ chunks,
          Some (as_Source <$>
                  List.filter has_uri_and_title (GenAI.web <$> chunks))) in
  {| role := model;
     content := GenAI.response_text response;
     sources :=
       match sources with
       | Some sources =>
           if (0 <? length sources)%nat then Some sources else None
       | None => None
       end |}.

(** What follows the [await]: the rest of [try], or [catch], and then
    [finally]. *)
Definition handleSendMessage_resume
    (outcome : Result GenAI.GenerateContentResponse) (s : State) : State :=
  let s :=
    match outcome with
    | Ok response =>
        let modelMessage := modelMessage_of response in
        setMessages (λ prev, prev ++ [modelMessage]) s
    | Throw e =>
        setMessages (λ prev, prev ++ [errorMessage]) s
    end in
  setIsLoading (λ _, false) s.

(** [handleSendMessage] is made anew whenever [userInput] or [isLoading]
    change, so an invocation reads the values of the current render; the
    reference [chatRef] is read as it is. *)
Definition handleSendMessage (s : State) : Async :=
  match negb (truthy (trim (userInput s))) || isLoading s, chatRef s with
  | false, Some chat =>
      let userMessage :=
        {| role := user; content := userInput s; sources := None |} in
      let s' := setMessages (λ prev, prev ++ [userMessage]) s in
      let s' := setUserInput (λ _, []) s' in
      let s' := setIsLoading (λ _, true) s' in
      Awaiting s' chat {| GenAI.message := userInput s |}
        handleSendMessage_resume
  | _, _ => Resolved s
  end.

(** The calls of [sendMessage] an invocation makes. *)
Definition backend_calls (a : Async)
  : list (Chat * GenAI.SendMessageParameters) :=
  match a with
  | Resolved _ => []
  | Awaiting _ chat request _ => [(chat, request)]
  end.

(** The state an invocation leaves when it returns to the event loop. *)
Definition state_of (a : Async) : State :=
  match a with
  | Resolved s => s
  | Awaiting s _ _ _ => s
  end.

(** A send whose call settles before anything else happens. *)
Definition send (outcome : Result GenAI.GenerateContentResponse)
    (s : State) : State :=
  match handleSendMessage s with
  | Resolved s' => s'
  | Awaiting s' _ _ k => k outcome s'
  end.

(** *** The event loop *)

(** Everything that happens to a mounted component. *)
Inductive Event : Type :=
  | Change (value : jsstring)        (* the user edits the text area *)
  | Send                             (* Enter, or the send button *)
  | Settle (outcome : Result GenAI.GenerateContentResponse)
                                     (* the oldest pending call settles *)
  | ToggleChat
  | ToggleRecording                  (* starts or stops the recogniser *)
  | SpeechStart
  | SpeechEnd
  | SpeechResult (transcript : jsstring)
  | SpeechError (code : jsstring).

(** The component and the continuations of its pending calls. *)
Record World : Type := {
  ui : State;
  pending : list (Result GenAI.GenerateContentResponse -> State -> State);
}.

Definition step (w : World) (ev : Event) : World :=
  match ev with
  | Change value => {| ui := onChange value (ui w); pending := pending w |}
  | Send =>
      match handleSendMessage (ui w) with
      | Resolved s => {| ui := s; pending := pending w |}
      | Awaiting s _ _ k => {| ui := s; pending := pending w ++ [k] |}
      end
  | Settle outcome =>
      match pending w with
      | k :: ks => {| ui := k outcome (ui w); pending := ks |}
      | [] => w
      end
  | ToggleChat => {| ui := toggleChat (ui w); pending := pending w |}
  | ToggleRecording => w
  | SpeechStart => {| ui := onstart (ui w); pending := pending w |}
  | SpeechEnd => {| ui := onend (ui w); pending := pending w |}
  | SpeechResult t => {| ui := onresult t (ui w); pending := pending w |}
  | SpeechError c => {| ui := onerror c (ui w); pending := pending w |}
  end.

Definition run (w : World) (evs : list Event) : World := foldl step w evs.

(** One completed send: the user enters [text], sends it, and the call
    settles with [outcome]. *)
Definition completed_send
    (r : jsstring * Result GenAI.GenerateContentResponse) : list Event :=
  [Change r.1; Send; Settle r.2].

End ChatWidget.

Arguments State : clear implicits.
Arguments Async : clear implicits.
Arguments Event : clear implicits.
Arguments World : clear implicits.

(* ===================================================================== *)
(** ** An SDK to run the examples with *)
(* ===================================================================== *)

(** A client is its API key and a session the parameters it was created
    with. As the SDK does in a browser, creating a client without a key
    throws. The properties below hold for every SDK, this one included. *)
Module BrowserSDK.

Definition GoogleGenAI : Type := jsstring.
Definition Chat : Type := GenAI.CreateChatParameters.

Definition new_GoogleGenAI (options : GenAI.GoogleGenAIOptions)
  : Result GoogleGenAI :=
  match GenAI.apiKey options with
  | Some key => Ok key
  | None =>
      Throw (Error (js "An API Key must be set when running in a browser"))
  end.

Definition chats_create (ai : GoogleGenAI)
    (params : GenAI.CreateChatParameters) : Result Chat :=
  Ok params.

(** A mounted component whose session was created from [messages0]. *)
Definition mounted (messages0 : list Message) : State Chat :=
  set_chatRef (Some (chatParameters (history_of messages0)))
    (initial_State false messages0).

End BrowserSDK.

(** A reply without grounding data, and one with two citations, of which
    the second has an empty title. *)
Definition plain_reply (text : jsstring) : GenAI.GenerateContentResponse :=
  {| GenAI.candidates := None; GenAI.response_text := text |}.

Definition grounded_reply (text : jsstring) : GenAI.GenerateContentResponse :=
  {| GenAI.candidates :=
       Some [{| GenAI.groundingMetadata :=
                  Some {| GenAI.groundingChunks :=
                            Some [{| GenAI.web :=
                                       Some {| GenAI.uri := Some (js "https://www.asasqs.com.my");
                                               GenAI.title := Some (js "ASASQS") |} |};
                                  {| GenAI.web :=
                                       Some {| GenAI.uri := Some (js "https://example.org");
                                               GenAI.title := Some [] |} |};
                                  {| GenAI.web := None |}] |} |}];
     GenAI.response_text := text |}.

(** States of a mounted component with a session, for the examples: the
    stored transcript of the specification's scenario, with a question
    typed in, and with white space typed in. *)
Definition stored_transcript : list Message :=
  [{| role := model; content := js "Hi"; sources := None |}].

Definition question : jsstring := js "What services do you offer?".

Definition ready_State : State BrowserSDK.Chat :=
  onChange question (BrowserSDK.mounted stored_transcript).

Definition blank_State : State BrowserSDK.Chat :=
  onChange (js "   ") (BrowserSDK.mounted stored_transcript).

Definition loading_State : State BrowserSDK.Chat :=
  setIsLoading (λ _, true) ready_State.

(** The first render when the stored transcript is [stored_transcript]:
    no session yet. *)
Definition unmounted_State : State BrowserSDK.Chat :=
  initial_State false stored_transcript.

(* ===================================================================== *)
(** ** The specification's words, as definitions *)
(* ===================================================================== *)

(** History reconstruction as the specification has it: the turns with role
    [error] are left out, the others are kept, in their order, each as the
    turn of the backend with its role and its text. *)
Inductive Reconstructs : list Message -> list GenAI.Content -> Prop :=
  | Reconstructs_nil : Reconstructs [] []
  | Reconstructs_skip msg msgs h :
      role msg = error ->
      Reconstructs msgs h ->
      Reconstructs (msg :: msgs) h
  | Reconstructs_keep msg msgs h :
      role msg = user ∨ role msg = model ->
      Reconstructs msgs h ->
      Reconstructs (msg :: msgs)
        ({| GenAI.role := role msg;
            GenAI.parts := [{| GenAI.text := content msg |}] |} :: h).

(** The grounding citation list of a reply: the chunks of the first
    candidate's grounding metadata, none when any of these is missing. *)
Definition citations (response : GenAI.GenerateContentResponse)
  : list GenAI.GroundingChunk :=
  match GenAI.candidates response with
  | Some (candidate :: _) =>
      match GenAI.groundingMetadata candidate with
      | Some metadata => default [] (GenAI.groundingChunks metadata)
      | None => []
      end
  | _ => []
  end.

(** The citation of a chunk that has both a non-empty URI and a non-empty
    title. *)
Definition valid_citation (chunk : GenAI.GroundingChunk) : option Source :=
  web ← GenAI.web chunk;
  u ← GenAI.uri web;
  t ← GenAI.title web;
  if decide (u ≠ [] ∧ t ≠ []) then Some {| uri := u; title := t |} else None.

Definition valid_citations (response : GenAI.GenerateContentResponse)
  : list Source :=
  omap valid_citation (citations response).

(** [[x1; y1; x2; y2; ..]] *)
Fixpoint interleave {A} (xs ys : list A) : list A :=
  match xs, ys with
  | x :: xs, y :: ys => x :: y :: interleave xs ys
  | _, _ => []
  end.

Definition userMessage_of (text : jsstring) : Message :=
  {| role := user; content := text; sources := None |}.

(** The Message a settled call appends. *)
Definition reply_of (outcome : Result GenAI.GenerateContentResponse)
  : Message :=
  match outcome with
  | Ok response => modelMessage_of response
  | Throw _ => errorMessage
  end.

(* ===================================================================== *)
(** ** JSON.stringify *)
(* ===================================================================== *)

(** The text [JSON.stringify] writes for a value, without white space. As
    with the parser, the component is verified for every serialiser; this
    one makes the examples run. A number is written as its lexeme. *)
Module JSONWriter.








End JSONWriter.

(* ===================================================================== *)
(** ** The persistence effects *)
(* ===================================================================== *)


Section Persist.

(** The platform's [JSON.stringify]. *)
Variable JSON_stringify : JSON -> jsstring.



End Persist.

(* ===================================================================== *)
(** ** The view, where it decides what the user can do *)
(* ===================================================================== *)

Section View.

Context {Chat : Type}.

(** [disabled] of the send button. *)
Definition sendButton_disabled (s : State Chat) : bool :=
  isLoading s || negb (truthy (trim (userInput s))).

(** [onKeyDown] of the text area: Enter without Shift sends. *)
Definition onKeyDown (key : jsstring) (shiftKey : bool) (s : State Chat)
  : Async Chat :=
  if bool_decide (key = js "Enter") && negb shiftKey
  then handleSendMessage s
  else Resolved s.

(** What [handleToggleRecording] asks of the recogniser; [recognition]
    tells whether [recognitionRef.current] is set. *)
Inductive RecognitionCall : Type := start | stop.

Definition handleToggleRecording (recognition : bool) (s : State Chat)
  : option RecognitionCall :=
  if negb recognition then None
  else if isRecording s then Some stop
  else Some start.

End View.

(* ===================================================================== *)
(** ** Runs of the event loop *)
(* ===================================================================== *)

Section Runs.

Context {Chat : Type}.

(** The calls of [sendMessage] an event makes, and a run of events. *)
Definition calls_at (w : World Chat) (ev : Event)
  : list (Chat * GenAI.SendMessageParameters) :=
  match ev with
  | Send => backend_calls (handleSendMessage (ui w))
  | _ => []
  end.

Fixpoint calls_of (w : World Chat) (evs : list Event)
  : list (Chat * GenAI.SendMessageParameters) :=
  match evs with
  | [] => []
  | ev :: evs => calls_at w ev ++ calls_of (step w ev) evs
  end.

(** Every pending continuation is the one of [handleSendMessage]. *)
Definition resumable (w : World Chat) : Prop :=
  Forall (λ k, k = handleSendMessage_resume) (pending w).

(** No call is pending and the loading flag is down, or one call is
    pending and the flag is up. *)
Definition single_flight (w : World Chat) : Prop :=
  (pending w = [] ∧ isLoading (ui w) = false)
  ∨ (pending w = [handleSendMessage_resume] ∧ isLoading (ui w) = true).

Definition is_ToggleChat (ev : Event) : bool :=
  match ev with ToggleChat => true | _ => false end.

(** The results of the recogniser, one after the other. *)
Definition dictate (transcripts : list jsstring) (s : State Chat)
  : State Chat :=
  foldl (λ s t, onresult t s) s transcripts.

End Runs.

(** The words [ts] with a space between them. *)
Fixpoint join_space (ts : list jsstring) : jsstring :=
  match ts with
  | [] => []
  | [t] => t
  | t :: ts' => t ++ js " " ++ join_space ts'
  end.

(** The turns a completed send adds to the history of a later session. *)
Definition turn_of (r : Role) (text : jsstring) : GenAI.Content :=
  {| GenAI.role := r; GenAI.parts := [{| GenAI.text := text |}] |}.

Definition turns_of_send
    (r : jsstring * Result GenAI.GenerateContentResponse)
  : list GenAI.Content :=
  turn_of user r.1
  :: match r.2 with
     | Ok response => [turn_of model (GenAI.response_text response)]
     | Throw _ => []
     end.

(* ===================================================================== *)
(** ** Properties of the persisted-state load *)
(* ===================================================================== *)

Section LoadProperties.

Variable JSON_parse : jsstring -> Result JSON.
Variable sessionStorage : Storage.

Let saved := getItem sessionStorage (js "chatWidgetMessages").
Let seed := [Message_to_JSON initialMessage].

Lemma messages_init_unreadable e :
  saved = Throw e -> messages_init JSON_parse sessionStorage = Ok seed.
Proof. unfold messages_init. fold saved. by intros ->. Qed.

Lemma messages_init_absent :
  saved = Ok None -> messages_init JSON_parse sessionStorage = Ok seed.
Proof. unfold messages_init. fold saved. by intros ->. Qed.

Lemma messages_init_empty_string :
  saved = Ok (Some []) -> messages_init JSON_parse sessionStorage = Ok seed.
Proof. unfold messages_init. fold saved. by intros ->. Qed.

Lemma messages_init_parsed text :
  saved = Ok (Some text) -> text ≠ [] ->
  messages_init JSON_parse sessionStorage =
    match JSON_parse text with
    | Ok (JArray (x :: l)) => Ok (x :: l)
    | _ => Ok seed
    end.
Proof.
  unfold messages_init. fold saved. intros -> Htext.
  destruct text as [|c text]; [done|]. simpl.
  destruct (JSON_parse (c :: text)) as [[| | | |[|x l]|]|e]; reflexivity.
Qed.

(** The load never throws and never returns an empty sequence. *)
Lemma messages_init_total :
  ∃ l, messages_init JSON_parse sessionStorage = Ok l ∧ l ≠ [].
Proof.
  unfold messages_init. destruct (getItem _ _) as [[[|c text]|]|e]; simpl;
    try (by eexists).
  destruct (JSON_parse (c :: text)) as [[| | | |[|x l]|]|e]; by eexists.
Qed.

(** C1, as amended. When the messages key cannot be read, is absent, or
    holds the empty string, malformed JSON, a value that is not an array
    or an empty array, the load returns exactly the one-message default
    welcome sequence; when it holds a non-empty array the load returns
    that array as it was parsed, whatever its elements; and in every
    state the load returns a non-empty sequence without throwing. *)
Theorem messages_init_default :
  ((∃ e, saved = Throw e)
   ∨ saved = Ok None
   ∨ saved = Ok (Some [])
   ∨ (∃ text, saved = Ok (Some text)
        ∧ ((∃ e, JSON_parse text = Throw e)
           ∨ (∃ v, JSON_parse text = Ok v ∧ ∀ l, v ≠ JArray l)
           ∨ JSON_parse text = Ok (JArray []))) ->
   messages_init JSON_parse sessionStorage = Ok seed)
  ∧ (∀ text x l,
       saved = Ok (Some text) -> text ≠ [] ->
       JSON_parse text = Ok (JArray (x :: l)) ->
       messages_init JSON_parse sessionStorage = Ok (x :: l))
  ∧ (∃ l, messages_init JSON_parse sessionStorage = Ok l ∧ l ≠ [])
  ∧ role initialMessage = model.
Proof.
  split; [|split; [|split; [apply messages_init_total|done]]].
  - intros [[e H]|[H|[H|(text & H & Hp)]]];
      eauto using messages_init_unreadable, messages_init_absent,
        messages_init_empty_string.
    destruct text as [|c text]; [by apply messages_init_empty_string|].
    rewrite (messages_init_parsed _ H) by done.
    destruct Hp as [[e ->]|[(v & -> & Hv)| ->]]; try done.
    destruct v as [| | | |[|x l]|]; try done; by destruct (Hv (x :: l)).
  - intros text x l H Htext Hp.
    by rewrite (messages_init_parsed _ H), Hp.
Qed.

End LoadProperties.

(** The default is returned for a stored empty array and for stored text
    that is not JSON. *)
Lemma messages_init_default_witness :
  messages_init JSONParser.parse
    (Items {[ js "chatWidgetMessages" := js "[]" ]})
  = Ok [Message_to_JSON initialMessage]
  ∧ messages_init JSONParser.parse
      (Items {[ js "chatWidgetMessages" := js "[{role:" ]})
    = Ok [Message_to_JSON initialMessage].
Proof.
  split.
  - apply (proj1 (messages_init_default JSONParser.parse _)).
    right; right; right. exists (js "[]").
    split; [by vm_compute|]. right; right. by vm_compute.
  - apply (proj1 (messages_init_default JSONParser.parse _)).
    right; right; right. exists (js "[{role:").
    split; [by vm_compute|]. left. eexists. by vm_compute.
Defined.

(** A stored transcript comes back as the Messages it was written from. *)
Example messages_init_stored_transcript :
  messages_init JSONParser.parse
    (Items {[ js "chatWidgetMessages" :=
                json_text "[{'role':'model','content':'Hi'},{'role':'user','content':'Quote?'}]" ]})
  = Ok (Message_to_JSON <$>
          [{| role := model; content := js "Hi"; sources := None |};
           {| role := user; content := js "Quote?"; sources := None |}]).
Proof. by vm_compute. Qed.

(** So does a stored array of objects that are not Messages. *)
Example messages_init_stored_garbage :
  messages_init JSONParser.parse
    (Items {[ js "chatWidgetMessages" := json_text "[{'role':'system'}]" ]})
  = Ok [JObject [(js "role", JString (js "system"))]]
  ∧ valid_structure (JArray [JObject [(js "role", JString (js "system"))]])
    = false.
Proof. split; by vm_compute. Qed.

(** C1, as stated, fails: a stored [[1]] is not a sequence of Messages, and
    the load returns it instead of the default welcome sequence. *)
Lemma messages_init_keeps_invalid_structure :
  JSONParser.parse (js "[1]") = Ok (JArray [JNumber (js "1")])
  ∧ valid_structure (JArray [JNumber (js "1")]) = false
  ∧ messages_init JSONParser.parse
      (Items {[ js "chatWidgetMessages" := js "[1]" ]})
    = Ok [JNumber (js "1")]
  ∧ messages_init JSONParser.parse
      (Items {[ js "chatWidgetMessages" := js "[1]" ]})
    ≠ Ok [Message_to_JSON initialMessage].
Proof.
  split; [by vm_compute|]. split; [by vm_compute|].
  assert (messages_init JSONParser.parse
            (Items {[ js "chatWidgetMessages" := js "[1]" ]})
          = Ok [JNumber (js "1")]) as H by (by vm_compute).
  split; [done|]. rewrite H. by vm_compute.
Qed.

(* ===================================================================== *)
(** ** Properties of the session initialiser's history *)
(* ===================================================================== *)

Lemma history_of_cons msg msgs :
  history_of (msg :: msgs) =
    match role msg with
    | error => history_of msgs
    | _ => {| GenAI.role := role msg;
              GenAI.parts := [{| GenAI.text := content msg |}] |}
           :: history_of msgs
    end.
Proof. destruct msg as [[] c srcs]; reflexivity. Qed.

Lemma history_of_Reconstructs msgs : Reconstructs msgs (history_of msgs).
Proof.
  induction msgs as [|msg msgs IH]; [constructor|].
  rewrite history_of_cons. destruct (role msg) eqn:Hrole.
  - rewrite <- Hrole. apply Reconstructs_keep; [by left | done].
  - rewrite <- Hrole. apply Reconstructs_keep; [by right | done].
  - by apply Reconstructs_skip.
Qed.

Lemma Reconstructs_history_of msgs h :
  Reconstructs msgs h -> h = history_of msgs.
Proof.
  induction 1 as [|msg msgs h Hrole _ IH|msg msgs h Hrole _ IH];
    [done| |]; rewrite history_of_cons.
  - by rewrite Hrole.
  - rewrite IH. by destruct Hrole as [-> | ->].
Qed.

Lemma history_of_roles msgs :
  Forall (λ turn, GenAI.role turn = user ∨ GenAI.role turn = model)
    (history_of msgs).
Proof.
  induction msgs as [|msg msgs IH]; [constructor|].
  rewrite history_of_cons. destruct (role msg); auto.
Qed.

Lemma history_of_app msgs1 msgs2 :
  history_of (msgs1 ++ msgs2) = history_of msgs1 ++ history_of msgs2.
Proof. unfold history_of. by rewrite List.filter_app, fmap_app. Qed.

(** C2. For every sequence of Messages, the history the session is created
    with is the one the specification describes, and the only one: the
    turns with role [user] or [model], every [error] turn left out, in
    their relative order, each with its role and its text; and that
    history is what [initChat] passes to the SDK. *)
Theorem history_of_spec (msgs : list Message) :
  (∀ h, Reconstructs msgs h ↔ h = history_of msgs)
  ∧ Forall (λ turn, GenAI.role turn = user ∨ GenAI.role turn = model)
      (history_of msgs)
  ∧ (∀ before msg after,
       msgs = before ++ msg :: after ->
       history_of msgs =
         history_of before
         ++ (if decide (role msg = error) then []
             else [{| GenAI.role := role msg;
                      GenAI.parts := [{| GenAI.text := content msg |}] |}])
         ++ history_of after)
  ∧ ∀ (GoogleGenAI Chat : Type) new_GoogleGenAI chats_create API_KEY
      (s : State Chat) (ai : GoogleGenAI) chat,
      messages s = msgs ->
      new_GoogleGenAI {| GenAI.apiKey := API_KEY |} = Ok ai ->
      chats_create ai (chatParameters (history_of msgs)) = Ok chat ->
      GenAI.history (chatParameters (history_of msgs)) = history_of msgs
      ∧ initChat new_GoogleGenAI chats_create API_KEY s
        = Ok (set_chatRef (Some chat) s).
Proof.
  split; [|split; [apply history_of_roles|split]].
  - intros h. split; [apply Reconstructs_history_of|].
    intros ->. apply history_of_Reconstructs.
  - intros before msg after ->.
    rewrite history_of_app, history_of_cons.
    by destruct (role msg).
  - intros GoogleGenAI Chat new create key s ai chat Hmsgs Hnew Hcreate.
    split; [done|]. unfold initChat. rewrite Hnew. simpl.
    by rewrite Hmsgs, Hcreate.
Qed.

(** The history of a transcript with an error turn in the middle. *)
Lemma history_of_spec_witness :
  history_of [initialMessage; userMessage_of (js "Hi"); errorMessage;
              userMessage_of (js "Hello?")]
  = [{| GenAI.role := model;
        GenAI.parts := [{| GenAI.text := content initialMessage |}] |};
     {| GenAI.role := user; GenAI.parts := [{| GenAI.text := js "Hi" |}] |};
     {| GenAI.role := user;
        GenAI.parts := [{| GenAI.text := js "Hello?" |}] |}].
Proof.
  symmetry.
  apply (proj1 (history_of_spec _)).
  repeat first
    [ apply Reconstructs_nil
    | apply Reconstructs_skip; [reflexivity|]
    | apply (Reconstructs_keep (userMessage_of _)); [left; reflexivity|]
    | apply (Reconstructs_keep initialMessage); [right; reflexivity|] ].
Defined.

(* ===================================================================== *)
(** ** Properties of [trim] *)
(* ===================================================================== *)

Lemma trimStart_nil (s : jsstring) :
  trimStart s = [] ↔ forallb isWhiteSpace s = true.
Proof.
  induction s as [|c s IH]; [done|]. simpl.
  destruct (isWhiteSpace c); [done|]. split; discriminate.
Qed.

Lemma trimStart_head (s : jsstring) c s' :
  trimStart s = c :: s' -> isWhiteSpace c = false.
Proof.
  induction s as [|d s IH]; [done|]. simpl.
  destruct (isWhiteSpace d) eqn:Hd; [done|]. by intros [= <- _].
Qed.

Lemma forallb_rev {A} (f : A -> bool) (l : list A) :
  forallb f (rev l) = forallb f l.
Proof.
  induction l as [|x l IH]; [done|]. simpl.
  rewrite forallb_app, IH. simpl. by destruct (f x), (forallb f l).
Qed.

(** The input is empty after trimming exactly when it is empty or made of
    white space only. *)
Lemma trim_nil (s : jsstring) :
  trim s = [] ↔ forallb isWhiteSpace s = true.
Proof.
  unfold trim, trimEnd. rewrite <- trimStart_nil. split.
  - intros H. apply (f_equal (@rev N)) in H. rewrite rev_involutive in H.
    simpl in H. apply trimStart_nil in H. rewrite forallb_rev in H.
    destruct (trimStart s) as [|c s'] eqn:Hs; [done|].
    apply trimStart_head in Hs. simpl in H. by rewrite Hs in H.
  - by intros ->.
Qed.

(* ===================================================================== *)
(** ** Properties of the send cycle *)
(* ===================================================================== *)

Section SendProperties.

Context {Chat : Type}.
Implicit Types (s : State Chat) (w : World Chat).
Implicit Types (outcome : Result GenAI.GenerateContentResponse).

(** The guard of [handleSendMessage], both ways. *)
Lemma handleSendMessage_Resolved s :
  trim (userInput s) = [] ∨ isLoading s = true ∨ chatRef s = None ->
  handleSendMessage s = Resolved s.
Proof.
  unfold handleSendMessage. intros [H|[H|H]]; rewrite H; simpl.
  - reflexivity.
  - by rewrite orb_true_r.
  - by destruct (_ || _).
Qed.

Lemma handleSendMessage_Awaiting s chat :
  trim (userInput s) ≠ [] -> isLoading s = false -> chatRef s = Some chat ->
  handleSendMessage s =
    Awaiting
      (setIsLoading (λ _, true)
         (setUserInput (λ _, [])
            (setMessages (λ prev, prev ++ [userMessage_of (userInput s)]) s)))
      chat {| GenAI.message := userInput s |} handleSendMessage_resume.
Proof.
  unfold handleSendMessage. intros Ht -> ->.
  by destruct (trim (userInput s)).
Qed.

(** C3. When the input is empty after trimming (it is empty or white
    space only), or a send is in flight, or the session handle is unset,
    an invocation of [handleSendMessage] is a no-op: it returns at once in
    the state it was called in, so the messages, the pending input and
    the loading flag are unchanged, and it calls no [sendMessage]. *)
Theorem handleSendMessage_noop s :
  (trim (userInput s) = [] ∨ forallb isWhiteSpace (userInput s) = true)
  ∨ isLoading s = true ∨ chatRef s = None ->
  handleSendMessage s = Resolved s
  ∧ backend_calls (handleSendMessage s) = []
  ∧ messages (state_of (handleSendMessage s)) = messages s
  ∧ userInput (state_of (handleSendMessage s)) = userInput s
  ∧ isLoading (state_of (handleSendMessage s)) = isLoading s
  ∧ ∀ ks, step {| ui := s; pending := ks |} Send
          = {| ui := s; pending := ks |}.
Proof.
  intros H.
  assert (handleSendMessage s = Resolved s) as Hr.
  { apply handleSendMessage_Resolved.
    destruct H as [[H|H]|H]; [by left|left; by apply trim_nil|by right]. }
  rewrite Hr. repeat split. intros ks. simpl. by rewrite Hr.
Qed.

(** *** The reply *)

Lemma has_uri_and_title_valid chunk :
  valid_citation chunk =
    if has_uri_and_title (GenAI.web chunk)
    then Some (as_Source (GenAI.web chunk)) else None.
Proof.
  unfold valid_citation, has_uri_and_title, as_Source.
  destruct chunk as [[[[[|a u]|] [[|b t]|]]|]]; reflexivity.
Qed.

Lemma filter_valid_citations (chunks : list GenAI.GroundingChunk) :
  as_Source <$> List.filter has_uri_and_title (GenAI.web <$> chunks)
  = omap valid_citation chunks.
Proof.
  induction chunks as [|chunk chunks IH]; [done|].
  rewrite fmap_cons. cbn [List.filter omap list_omap].
  rewrite has_uri_and_title_valid.
  destruct (has_uri_and_title (GenAI.web chunk));
    [rewrite fmap_cons|]; by rewrite IH.
Qed.

Lemma modelMessage_of_sources response :
  sources (modelMessage_of response) =
    match valid_citations response with
    | [] => None
    | l => Some l
    end.
Proof.
  unfold modelMessage_of, valid_citations, citations.
  destruct response as [[[|[[[[chunks|]]|]] cands]|] txt]; simpl; try done.
  rewrite filter_valid_citations. by destruct (omap _ _).
Qed.

(** Every source of [valid_citations] comes from a chunk whose URI and
    title are both there and non-empty, and every such chunk gives one. *)
Lemma elem_of_valid_citations response src :
  src ∈ valid_citations response ↔
  ∃ chunk web,
    chunk ∈ citations response ∧ GenAI.web chunk = Some web
    ∧ GenAI.uri web = Some (uri src) ∧ GenAI.title web = Some (title src)
    ∧ uri src ≠ [] ∧ title src ≠ [].
Proof.
  unfold valid_citations. rewrite list_elem_of_omap. split.
  - intros (chunk & Hin & Hv). unfold valid_citation in Hv.
    destruct (GenAI.web chunk) as [web|] eqn:Hweb; [|done]. simpl in Hv.
    destruct (GenAI.uri web) as [u|] eqn:Hu; [|done]. simpl in Hv.
    destruct (GenAI.title web) as [t|] eqn:Ht; [|done]. simpl in Hv.
    destruct (decide _) as [[Hu' Ht']|]; [|done]. simplify_eq. simpl.
    exists chunk, web. naive_solver.
  - intros (chunk & web & Hin & Hweb & Hu & Ht & Hne).
    exists chunk. split; [done|]. unfold valid_citation.
    rewrite Hweb. simpl. rewrite Hu. simpl. rewrite Ht. simpl.
    rewrite decide_True by done. by destruct src.
Qed.

(** C4. A call that settles with a reply appends one Message: its role is
    [model], its content is the reply's text, and its sources are the
    reply's grounding citations that have both a non-empty URI and a
    non-empty title, in their order. The sources are present exactly when
    there is such a citation; they are omitted, never empty, otherwise. *)
Theorem modelMessage_appended response s :
  let msg := modelMessage_of response in
  messages (handleSendMessage_resume (Ok response) s) = messages s ++ [msg]
  ∧ messages (send (Ok response) s)
    = messages (state_of (handleSendMessage s))
      ++ (if backend_calls (handleSendMessage s) is [] then [] else [msg])
  ∧ role msg = model
  ∧ content msg = GenAI.response_text response
  ∧ sources msg =
      (if valid_citations response is [] then None
       else Some (valid_citations response))
  ∧ (is_Some (sources msg) ↔ valid_citations response ≠ [])
  ∧ sources msg ≠ Some []
  ∧ ∀ src, src ∈ valid_citations response ↔
      ∃ chunk web,
        chunk ∈ citations response ∧ GenAI.web chunk = Some web
        ∧ GenAI.uri web = Some (uri src)
        ∧ GenAI.title web = Some (title src)
        ∧ uri src ≠ [] ∧ title src ≠ [].
Proof.
  intros msg. subst msg. rewrite modelMessage_of_sources.
  split; [done|]. split.
  { unfold send. destruct (handleSendMessage s) as [s'|s' c r k] eqn:H.
    - simpl. by rewrite app_nil_r.
    - unfold handleSendMessage in H.
      destruct (_ || _), (chatRef s); try done. by injection H as <- _ _ <-. }
  split; [done|]. split; [done|].
  split; [by destruct (valid_citations response)|].
  split; [|split; [|apply elem_of_valid_citations]].
  - destruct (valid_citations response); split; try done.
  - by destruct (valid_citations response).
Qed.

(** *** Failure of the call *)

(** C5. When the call of a send throws or rejects, the transcript gains
    exactly one Message, with role [error] and the content "Sorry,
    something went wrong. Please try again." (after the [user] Message of
    the send itself); and the loading flag is false once the send is
    over, whether the call succeeded or failed. *)
Theorem send_failure s s1 chat request k :
  handleSendMessage s = Awaiting s1 chat request k ->
  (∀ e s',
     messages (k (Throw e) s')
     = messages s'
       ++ [{| role := error;
              content := js "Sorry, something went wrong. Please try again.";
              sources := None |}])
  ∧ (∀ e,
       messages (send (Throw e) s)
       = messages s ++ [userMessage_of (userInput s); errorMessage])
  ∧ (∀ outcome s', isLoading (k outcome s') = false)
  ∧ (∀ outcome, isLoading (send outcome s) = false).
Proof.
  intros H. unfold send. rewrite H. unfold handleSendMessage in H.
  destruct (_ || _), (chatRef s); try done. injection H as <- _ _ <-.
  repeat split; try done.
  - intros e. simpl. by rewrite <- app_assoc.
Qed.

(** C10. When a send ends in failure its text is not put back: the
    pending input is cleared when the send starts, the failure path
    leaves the pending input as it finds it, and so the input is empty
    when the send is over. *)
Theorem send_failure_input s s1 chat request k :
  handleSendMessage s = Awaiting s1 chat request k ->
  userInput s1 = []
  ∧ (∀ e s', userInput (k (Throw e) s') = userInput s')
  ∧ (∀ e, userInput (send (Throw e) s) = []).
Proof.
  intros H. unfold send. rewrite H. unfold handleSendMessage in H.
  destruct (_ || _), (chatRef s); try done. by injection H as <- _ _ <-.
Qed.

(** *** Sequences of sends *)

Lemma run_app w evs1 evs2 : run w (evs1 ++ evs2) = run (run w evs1) evs2.
Proof. apply foldl_app. Qed.

Lemma run_completed_send w chat text outcome :
  pending w = [] -> isLoading (ui w) = false ->
  chatRef (ui w) = Some chat -> trim text ≠ [] ->
  run w (completed_send (text, outcome))
  = {| ui :=
         setUserInput (λ _, [])
           (setMessages
              (λ prev, prev ++ [userMessage_of text; reply_of outcome])
              (ui w));
       pending := [] |}.
Proof.
  destruct w as [s ks]. simpl. intros -> Hl Hc Ht. unfold run. simpl.
  rewrite (handleSendMessage_Awaiting _ chat) by done. simpl.
  unfold handleSendMessage_resume, setUserInput, setMessages, setIsLoading.
  destruct outcome; simpl; rewrite <- app_assoc, Hl; reflexivity.
Qed.

Lemma interleave_roles
    (rounds : list (jsstring * Result GenAI.GenerateContentResponse)) :
  length (filter (λ msg, role msg = user)
            (interleave (userMessage_of ∘ fst <$> rounds)
               (reply_of ∘ snd <$> rounds)))
  = length rounds
  ∧ length (filter (λ msg, role msg = model ∨ role msg = error)
              (interleave (userMessage_of ∘ fst <$> rounds)
                 (reply_of ∘ snd <$> rounds)))
    = length rounds
  ∧ length (interleave (userMessage_of ∘ fst <$> rounds)
              (reply_of ∘ snd <$> rounds))
    = (2 * length rounds)%nat.
Proof.
  induction rounds as [|[text outcome] rounds (IH1 & IH2 & IH3)]; [done|].
  rewrite !fmap_cons. cbn [interleave compose fst snd].
  assert (role (reply_of outcome) = model ∨ role (reply_of outcome) = error)
    as Hr by (destruct outcome; auto).
  rewrite (filter_cons_True (λ msg, role msg = user)) by done.
  rewrite (filter_cons_False (λ msg, role msg = user))
    by (destruct Hr as [-> | ->]; done).
  rewrite filter_cons_False by (by intros [|]).
  rewrite filter_cons_True by done.
  cbn [length]. rewrite IH1, IH2, IH3. repeat split; lia.
Qed.

(** C6. After any number N of completed sends, from any state with a
    session and no send in flight, the transcript is the initial one
    followed by the N [user] Messages of the sends, each followed by the
    Message its call produced, of role [model] or [error], in the order
    of the sends: N [user] Messages and N [model]-or-[error] ones. *)
Theorem completed_sends w
    (rounds : list (jsstring * Result GenAI.GenerateContentResponse)) :
  pending w = [] -> isLoading (ui w) = false -> is_Some (chatRef (ui w)) ->
  Forall (λ r, trim r.1 ≠ []) rounds ->
  let w' := run w (rounds ≫= completed_send) in
  let users := userMessage_of ∘ fst <$> rounds in
  let replies := reply_of ∘ snd <$> rounds in
  let added := interleave users replies in
  messages (ui w') = messages (ui w) ++ added
  ∧ length users = length rounds
  ∧ length replies = length rounds
  ∧ Forall (λ msg, role msg = model ∨ role msg = error) replies
  ∧ length (filter (λ msg, role msg = user) added) = length rounds
  ∧ length (filter (λ msg, role msg = model ∨ role msg = error) added)
    = length rounds
  ∧ length added = (2 * length rounds)%nat
  ∧ pending w' = [] ∧ isLoading (ui w') = false.
Proof.
  intros Hp Hl [chat Hc] Hrounds. simpl.
  rewrite !length_fmap.
  assert (Forall (λ msg, role msg = model ∨ role msg = error)
            (reply_of ∘ snd <$> rounds)) as Hreplies.
  { apply Forall_fmap, Forall_forall. intros [text [r|e]] _; simpl; auto. }
  pose proof (interleave_roles rounds) as (H1 & H2 & H3).
  cut (messages (ui (run w (rounds ≫= completed_send)))
       = messages (ui w)
         ++ interleave (userMessage_of ∘ fst <$> rounds)
              (reply_of ∘ snd <$> rounds)
       ∧ pending (run w (rounds ≫= completed_send)) = []
       ∧ isLoading (ui (run w (rounds ≫= completed_send))) = false).
  { intros (? & ? & ?). done. }
  clear H1 H2 H3 Hreplies. revert w Hp Hl Hc.
  induction Hrounds as [|[text outcome] rounds Ht _ IH]; intros w Hp Hl Hc.
  { simpl. by rewrite app_nil_r. }
  rewrite bind_cons, run_app.
  rewrite (run_completed_send _ chat) by done.
  set (w1 := {| ui := _; pending := [] |}).
  destruct (IH w1) as (IHm & IHp & IHl); [done..|].
  rewrite IHm, IHp, IHl. simpl. by rewrite <- app_assoc.
Qed.

(** *** A session that could not be created *)

(** No event sets [chatRef.current]: without a session and without a send
    in flight, the component stays so. *)
Lemma step_no_session w ev :
  chatRef (ui w) = None -> pending w = [] ->
  chatRef (ui (step w ev)) = None ∧ pending (step w ev) = [].
Proof.
  intros Hc Hp. destruct ev; simpl; try done.
  - rewrite handleSendMessage_Resolved by auto. done.
  - by rewrite Hp.
  - unfold onerror. by destruct (bool_decide _).
Qed.

Lemma run_no_session w evs :
  chatRef (ui w) = None -> pending w = [] ->
  chatRef (ui (run w evs)) = None ∧ pending (run w evs) = [].
Proof.
  revert w. induction evs as [|ev evs IH]; intros w Hc Hp; [done|].
  destruct (step_no_session w ev Hc Hp) as [Hc' Hp']. by apply IH.
Qed.

(** C7. If the client or the session cannot be created when the component
    mounts, [initChat] does not throw: it appends exactly one Message, of
    role [error], and the session handle stays unset; and whatever
    happens afterwards, every invocation of [handleSendMessage] finds the
    handle unset and is a no-op that calls no [sendMessage]. *)
Theorem initChat_failure {GoogleGenAI : Type}
    (new_GoogleGenAI : GenAI.GoogleGenAIOptions -> Result GoogleGenAI)
    (chats_create : GoogleGenAI -> GenAI.CreateChatParameters -> Result Chat)
    (API_KEY : option jsstring) s :
  chatRef s = None ->
  (∃ e, new_GoogleGenAI {| GenAI.apiKey := API_KEY |} = Throw e)
  ∨ (∃ ai e,
       new_GoogleGenAI {| GenAI.apiKey := API_KEY |} = Ok ai
       ∧ chats_create ai (chatParameters (history_of (messages s)))
         = Throw e) ->
  ∃ s',
    initChat new_GoogleGenAI chats_create API_KEY s = Ok s'
    ∧ s' = setMessages (λ prev, prev ++ [initFailureMessage]) s
    ∧ messages s' = messages s ++ [initFailureMessage]
    ∧ role initFailureMessage = error
    ∧ chatRef s' = None
    ∧ ∀ evs,
        let w := run {| ui := s'; pending := [] |} evs in
        chatRef (ui w) = None
        ∧ handleSendMessage (ui w) = Resolved (ui w)
        ∧ backend_calls (handleSendMessage (ui w)) = []
        ∧ step w Send = w.
Proof.
  intros Hc Hfail. eexists. split; [|split; [reflexivity|]].
  - unfold initChat.
    destruct Hfail as [[e ->]|(ai & e & -> & Hcreate)]; [done|].
    simpl. by rewrite Hcreate.
  - split; [done|]. split; [done|]. split; [done|].
    intros evs w.
    destruct (run_no_session
                {| ui := setMessages (λ prev, prev ++ [initFailureMessage]) s;
                   pending := [] |} evs) as [Hc' Hp']; [done..|].
    fold w in Hc', Hp'.
    assert (handleSendMessage (ui w) = Resolved (ui w)) as Hr
      by (apply handleSendMessage_Resolved; auto).
    split; [done|]. split; [done|]. rewrite Hr. split; [done|].
    simpl. rewrite Hr. by destruct w.
Qed.

(** *** Voice input *)

(** C8. A speech-recognition result with transcript [t] makes the pending
    input [p ++ " " ++ t] when the pending input [p] is not empty and [t]
    when it is; the transcript is unchanged and no send is started. *)
Theorem onresult_appends (transcript : jsstring) s :
  (userInput s ≠ [] ->
   userInput (onresult transcript s) = userInput s ++ js " " ++ transcript)
  ∧ (userInput s = [] -> userInput (onresult transcript s) = transcript)
  ∧ messages (onresult transcript s) = messages s
  ∧ isLoading (onresult transcript s) = isLoading s
  ∧ ∀ ks,
      step {| ui := s; pending := ks |} (SpeechResult transcript)
      = {| ui := onresult transcript s; pending := ks |}.
Proof.
  unfold onresult. simpl. repeat split.
  - intros Hp. destruct (userInput s); [done|]. simpl.
    by rewrite <- app_assoc.
  - by intros ->.
Qed.

(** C9. A speech-recognition error resets the recording state to false;
    the transcript gains one Message, of role [error] and with the text
    about microphone access, exactly when the error code is
    [not-allowed], and is unchanged for any other code. *)
Theorem onerror_permission (code : jsstring) s :
  isRecording (onerror code s) = false
  ∧ (code = js "not-allowed" ->
     messages (onerror code s)
     = messages s
       ++ [{| role := error;
              content := js "Microphone access was denied. Please allow it in your browser settings to use voice input.";
              sources := None |}])
  ∧ (code ≠ js "not-allowed" -> messages (onerror code s) = messages s)
  ∧ ((∃ msg, messages (onerror code s) = messages s ++ [msg])
     ↔ code = js "not-allowed").
Proof.
  unfold onerror. split; [by destruct (bool_decide _)|].
  split; [intros ->; done|]. split.
  - intros Hne. by rewrite bool_decide_eq_false_2.
  - case_bool_decide as Hcode; simpl; split; try done.
    + intros _. by eexists.
    + intros [msg Hmsg]. apply (f_equal length) in Hmsg.
      rewrite length_app in Hmsg. simpl in Hmsg. lia.
Qed.

End SendProperties.

(* ===================================================================== *)
(** ** The properties at work *)
(* ===================================================================== *)

(** White space typed in, a send in flight, no session: nothing happens. *)
Lemma handleSendMessage_noop_witness :
  handleSendMessage blank_State = Resolved blank_State
  ∧ handleSendMessage loading_State = Resolved loading_State
  ∧ handleSendMessage (onChange question unmounted_State)
    = Resolved (onChange question unmounted_State).
Proof.
  split; [|split].
  - apply (handleSendMessage_noop blank_State). left. left. reflexivity.
  - apply (handleSendMessage_noop loading_State). right. left. reflexivity.
  - apply (handleSendMessage_noop (onChange question unmounted_State)).
    right. right. reflexivity.
Defined.

(** The scenario of the specification, with a reply that cites one valid
    source: the sources are those of the reply that have a URI and a
    title. *)
Example send_grounded_reply :
  messages (send (Ok (grounded_reply (js "Cost planning."))) ready_State)
  = [{| role := model; content := js "Hi"; sources := None |};
     {| role := user; content := question; sources := None |};
     {| role := model; content := js "Cost planning.";
        sources := Some [{| uri := js "https://www.asasqs.com.my";
                            title := js "ASASQS" |}] |}].
Proof. reflexivity. Qed.

Example send_plain_reply :
  messages (send (Ok (plain_reply (js "Cost planning."))) ready_State)
  = [{| role := model; content := js "Hi"; sources := None |};
     {| role := user; content := question; sources := None |};
     {| role := model; content := js "Cost planning."; sources := None |}].
Proof. reflexivity. Qed.

(** The call fails: one error Message after the question, loading over. *)
Lemma send_failure_witness :
  messages (send (Throw (Error (js "Failed to fetch"))) ready_State)
  = [{| role := model; content := js "Hi"; sources := None |};
     {| role := user; content := question; sources := None |};
     {| role := error;
        content := js "Sorry, something went wrong. Please try again.";
        sources := None |}]
  ∧ isLoading (send (Throw (Error (js "Failed to fetch"))) ready_State)
    = false.
Proof.
  destruct (send_failure ready_State _ _ _ _ eq_refl) as (_ & Hm & _ & Hl).
  split; [apply Hm | apply Hl].
Defined.

Lemma send_failure_input_witness :
  userInput ready_State = question
  ∧ userInput (send (Throw (Error (js "Failed to fetch"))) ready_State) = [].
Proof.
  split; [reflexivity|].
  apply (send_failure_input ready_State _ _ _ _ eq_refl).
Defined.

(** Two sends, the first answered, the second failed. *)
Lemma completed_sends_witness :
  messages
    (ui (run {| ui := ready_State; pending := [] |}
           (completed_send (question, Ok (plain_reply (js "Cost planning.")))
            ++ completed_send (js "And a quote?",
                               Throw (Error (js "Failed to fetch"))))))
  = [{| role := model; content := js "Hi"; sources := None |};
     {| role := user; content := question; sources := None |};
     {| role := model; content := js "Cost planning."; sources := None |};
     {| role := user; content := js "And a quote?"; sources := None |};
     {| role := error;
        content := js "Sorry, something went wrong. Please try again.";
        sources := None |}].
Proof.
  apply (completed_sends {| ui := ready_State; pending := [] |}
           [(question, Ok (plain_reply (js "Cost planning.")));
            (js "And a quote?", Throw (Error (js "Failed to fetch")))]).
  - reflexivity.
  - reflexivity.
  - by eexists.
  - repeat constructor; by vm_compute.
Defined.

(** No API key: the client cannot be created, and after the user types a
    question and sends it twice nothing has been sent. *)
Lemma initChat_failure_witness :
  ∃ s',
    initChat BrowserSDK.new_GoogleGenAI BrowserSDK.chats_create None
      unmounted_State = Ok s'
    ∧ messages s' = stored_transcript ++ [initFailureMessage]
    ∧ chatRef s' = None
    ∧ run {| ui := s'; pending := [] |} [Change question; Send; Send]
      = {| ui := onChange question s'; pending := [] |}.
Proof.
  destruct (initChat_failure BrowserSDK.new_GoogleGenAI
              BrowserSDK.chats_create None unmounted_State eq_refl)
    as (s' & Hinit & Hs' & Hm & _ & Hc & Hsend).
  { left. by eexists. }
  exists s'. split; [exact Hinit|]. split; [exact Hm|]. split; [exact Hc|].
  destruct (Hsend [Change question]) as (_ & _ & _ & Hstep).
  unfold run in *. simpl in *. by rewrite !Hstep.
Defined.

(** Dictating into an empty input and into one with text. *)
Lemma onresult_appends_witness :
  userInput (onresult (js "services") unmounted_State) = js "services"
  ∧ userInput (onresult (js "today") ready_State)
    = js "What services do you offer? today".
Proof.
  split.
  - by apply (onresult_appends (js "services") unmounted_State).
  - by apply (onresult_appends (js "today") ready_State).
Defined.

(** Permission denied, and no speech heard. *)
Lemma onerror_permission_witness :
  messages (onerror (js "not-allowed") (onstart ready_State))
  = stored_transcript ++ [microphoneMessage]
  ∧ messages (onerror (js "no-speech") (onstart ready_State))
    = stored_transcript
  ∧ isRecording (onerror (js "no-speech") (onstart ready_State)) = false.
Proof.
  split; [|split].
  - by apply (onerror_permission (js "not-allowed") (onstart ready_State)).
  - by apply (onerror_permission (js "no-speech") (onstart ready_State)).
  - apply (onerror_permission (js "no-speech") (onstart ready_State)).
Defined.

(* ===================================================================== *)
(** ** Further properties: persistence *)
(* ===================================================================== *)

Section PersistenceProperties.

Variable JSON_parse : jsstring -> Result JSON.
Variable JSON_stringify : JSON -> jsstring.

Lemma isOpen_init_parsed sessionStorage text :
  getItem sessionStorage (js "chatWidgetIsOpen") = Ok (Some text) ->
  text ≠ [] ->
  isOpen_init JSON_parse sessionStorage =
    match JSON_parse text with
    | Ok v => Ok v
    | Throw _ => Ok (JBool false)
    end.
Proof.
  unfold isOpen_init. intros -> Htext.
  destruct text as [|c text]; [done|]. simpl.
  by destruct (JSON_parse (c :: text)).
Qed.

(** X1. The load of the visibility flag never throws. It gives [false]
    when the key cannot be read, is absent, or holds the empty string or
    text that is not JSON; otherwise it gives the parsed value as it is,
    boolean or not. *)
Theorem isOpen_init_fallback sessionStorage :
  let savedState := getItem sessionStorage (js "chatWidgetIsOpen") in
  ((∃ e, savedState = Throw e)
   ∨ savedState = Ok None
   ∨ savedState = Ok (Some [])
   ∨ (∃ text e, savedState = Ok (Some text) ∧ JSON_parse text = Throw e) ->
   isOpen_init JSON_parse sessionStorage = Ok (JBool false))
  ∧ (∀ text v,
       savedState = Ok (Some text) -> text ≠ [] -> JSON_parse text = Ok v ->
       isOpen_init JSON_parse sessionStorage = Ok v)
  ∧ ∃ v, isOpen_init JSON_parse sessionStorage = Ok v.
Proof.
  intros savedState. split; [|split].
  - intros [[e H]|[H|[H|(text & e & H & Hp)]]]; subst savedState;
      try (unfold isOpen_init; by rewrite H).
    destruct text as [|c text]; [unfold isOpen_init; by rewrite H|].
    by rewrite (isOpen_init_parsed _ _ H), Hp.
  - intros text v H Htext Hp. by rewrite (isOpen_init_parsed _ _ H), Hp.
  - unfold isOpen_init.
    destruct (getItem _ _) as [[[|c text]|]|e]; simpl; try by eexists.
    destruct (JSON_parse (c :: text)); by eexists.
Qed.




End PersistenceProperties.

(** A stored [true], stored text that is not JSON, and a stored array. *)
Lemma isOpen_init_fallback_witness :
  isOpen_init JSONParser.parse (Items {[ js "chatWidgetIsOpen" := js "true" ]})
  = Ok (JBool true)
  ∧ isOpen_init JSONParser.parse
      (Items {[ js "chatWidgetIsOpen" := js "tru" ]})
    = Ok (JBool false)
  ∧ isOpen_init JSONParser.parse
      (Items {[ js "chatWidgetIsOpen" := js "[1]" ]})
    = Ok (JArray [JNumber (js "1")]).
Proof.
  split; [|split].
  - apply (proj1 (proj2 (isOpen_init_fallback JSONParser.parse _)) (js "true"));
      by vm_compute.
  - apply (proj1 (isOpen_init_fallback JSONParser.parse _)).
    right; right; right. exists (js "tru"). eexists. split; by vm_compute.
  - apply (proj1 (proj2 (isOpen_init_fallback JSONParser.parse _)) (js "[1]"));
      by vm_compute.
Defined.



(* ===================================================================== *)
(** ** Further properties: the session initialiser *)
(* ===================================================================== *)



(* ===================================================================== *)
(** ** Further properties: runs of the event loop *)
(* ===================================================================== *)

Section RunProperties.

Context {Chat : Type}.
Implicit Types (s : State Chat) (w : World Chat) (ev : Event).
Implicit Types (evs : list Event).

Lemma run_cons w ev evs : run w (ev :: evs) = run (step w ev) evs.
Proof. reflexivity. Qed.

Lemma handleSendMessage_cases s :
  (handleSendMessage s = Resolved s
   ∧ (trim (userInput s) = [] ∨ isLoading s = true ∨ chatRef s = None))
  ∨ (∃ chat,
       chatRef s = Some chat ∧ isLoading s = false
       ∧ trim (userInput s) ≠ []
       ∧ handleSendMessage s =
           Awaiting
             (setIsLoading (λ _, true)
                (setUserInput (λ _, [])
                   (setMessages
                      (λ prev, prev ++ [userMessage_of (userInput s)]) s)))
             chat {| GenAI.message := userInput s |}
             handleSendMessage_resume).
Proof.
  destruct (chatRef s) as [chat|] eqn:Hc.
  - destruct (isLoading s) eqn:Hl.
    + left. split; [apply handleSendMessage_Resolved|]; auto.
    + destruct (trim (userInput s)) as [|c t] eqn:Ht.
      * left. split; [apply handleSendMessage_Resolved|]; auto.
      * right. exists chat. repeat split; try done.
        apply handleSendMessage_Awaiting; try done. by rewrite Ht.
  - left. split; [apply handleSendMessage_Resolved|]; auto.
Qed.

(** *** Single flight *)

Lemma step_single_flight w ev : single_flight w -> single_flight (step w ev).
Proof.
  intros Hw. destruct ev; simpl; try done.
  - destruct (handleSendMessage_cases (ui w))
      as [[-> _]|(chat & _ & Hl & _ & ->)]; [done|].
    destruct Hw as [[Hp _]|[_ Hl']]; [|congruence].
    right. by rewrite Hp.
  - destruct Hw as [[Hp Hl]|[Hp Hl]]; rewrite Hp; [by left|].
    left. done.
  - unfold single_flight, onerror. simpl.
    by destruct (bool_decide _).
Qed.

Lemma run_single_flight w evs : single_flight w -> single_flight (run w evs).
Proof.
  revert w. induction evs as [|ev evs IH]; intros w Hw; [done|].
  rewrite run_cons. by apply IH, step_single_flight.
Qed.

(** X5. Single flight. In every run of the component from a state with no
    call pending and the loading flag down, at most one call of
    [sendMessage] is pending at any time, the loading flag is up exactly
    while one is pending, and a send attempted meanwhile is a no-op that
    makes no call. *)
Theorem run_one_call_at_a_time s evs :
  isLoading s = false ->
  let w := run {| ui := s; pending := [] |} evs in
  (length (pending w) ≤ 1)%nat
  ∧ (isLoading (ui w) = true ↔ pending w ≠ [])
  ∧ (pending w ≠ [] -> step w Send = w ∧ calls_at w Send = []).
Proof.
  intros Hl w.
  assert (single_flight w) as Hw by (apply run_single_flight; by left).
  destruct Hw as [[Hp Hl']|[Hp Hl']]; rewrite Hp, Hl'.
  - repeat split; try done. simpl. lia.
  - split; [simpl; lia|]. split; [done|]. intros _.
    assert (handleSendMessage (ui w) = Resolved (ui w)) as Hr
      by (apply handleSendMessage_Resolved; auto).
    simpl. rewrite Hr. split; [|done]. destruct w. simpl in *. by subst.
Qed.

(** *** The session handle and the calls *)

Lemma step_resumable w ev :
  resumable w ->
  resumable (step w ev) ∧ chatRef (ui (step w ev)) = chatRef (ui w).
Proof.
  unfold resumable. intros Hw. destruct ev; simpl; try done.
  - destruct (handleSendMessage_cases (ui w))
      as [[-> _]|(chat & _ & _ & _ & ->)]; [done|].
    simpl. split; [|done]. apply Forall_app. split; [done|]. by constructor.
  - destruct (pending w) as [|k ks] eqn:Hp; [by rewrite Hp|].
    apply Forall_cons in Hw as [-> Hw]. simpl. split; [done|].
    by destruct outcome.
  - unfold onerror. by destruct (bool_decide _).
Qed.

Lemma calls_at_spec w ev c :
  c ∈ calls_at w ev ->
  chatRef (ui w) = Some c.1 ∧ trim (GenAI.message c.2) ≠ []
  ∧ GenAI.message c.2 = userInput (ui w) ∧ isLoading (ui w) = false.
Proof.
  destruct ev; simpl; try by intros ?%elem_of_nil.
  destruct (handleSendMessage_cases (ui w))
    as [[-> _]|(chat & Hc & Hl & Ht & ->)]; simpl.
  - by intros ?%elem_of_nil.
  - by intros ->%list_elem_of_singleton.
Qed.

Lemma run_resumable w evs :
  resumable w ->
  resumable (run w evs)
  ∧ chatRef (ui (run w evs)) = chatRef (ui w)
  ∧ Forall (λ c, chatRef (ui w) = Some c.1 ∧ trim (GenAI.message c.2) ≠ [])
      (calls_of w evs).
Proof.
  revert w. induction evs as [|ev evs IH]; intros w Hw; [done|].
  rewrite run_cons. simpl.
  destruct (step_resumable w ev Hw) as [Hw' Hc].
  destruct (IH _ Hw') as (IH1 & IH2 & IH3). rewrite Hc in IH2, IH3.
  split; [done|]. split; [done|]. apply Forall_app. split; [|done].
  apply Forall_forall. intros c Hin.
  by destruct (calls_at_spec _ _ _ Hin) as (? & ? & _).
Qed.

(** X6. The session handle is set once: no event of a mounted component
    replaces or clears it. Every call of [sendMessage] a run makes goes to
    that session, and none carries a text that is empty after trimming. *)
Theorem run_session_fixed s evs :
  chatRef (ui (run {| ui := s; pending := [] |} evs)) = chatRef s
  ∧ Forall (λ c, chatRef s = Some c.1 ∧ trim (GenAI.message c.2) ≠ [])
      (calls_of {| ui := s; pending := [] |} evs)
  ∧ (chatRef s = None -> calls_of {| ui := s; pending := [] |} evs = []).
Proof.
  destruct (run_resumable {| ui := s; pending := [] |} evs)
    as (_ & Hc & Hcalls); [by constructor|].
  split; [done|]. split; [done|]. intros Hnone. simpl in Hcalls.
  destruct (calls_of _ evs) as [|c cs]; [done|].
  apply Forall_cons in Hcalls as [[Hsome _] _]. congruence.
Qed.

(** *** The transcript *)

Lemma step_messages w ev :
  resumable w ->
  ∃ added,
    messages (ui (step w ev)) = messages (ui w) ++ added
    ∧ (length added ≤ 1)%nat
    ∧ filter (λ msg, role msg = user) added
      = (λ c, userMessage_of (GenAI.message c.2)) <$> calls_at w ev.
Proof.
  unfold resumable. intros Hw.
  destruct ev; simpl;
    try (exists []; rewrite app_nil_r; repeat split; simpl; done || lia).
  - destruct (handleSendMessage_cases (ui w))
      as [[-> _]|(chat & _ & _ & _ & ->)]; simpl.
    + exists []. rewrite app_nil_r. repeat split; simpl; done || lia.
    + by exists [userMessage_of (userInput (ui w))].
  - destruct (pending w) as [|k ks].
    + exists []. rewrite app_nil_r. repeat split; simpl; done || lia.
    + apply Forall_cons in Hw as [-> _]. simpl.
      exists [reply_of outcome]. destruct outcome; by repeat split.
  - unfold onerror. destruct (bool_decide _); simpl.
    + by exists [microphoneMessage].
    + exists []. rewrite app_nil_r. repeat split; simpl; done || lia.
Qed.

Lemma run_messages w evs :
  resumable w ->
  ∃ added,
    messages (ui (run w evs)) = messages (ui w) ++ added
    ∧ (length added ≤ length evs)%nat
    ∧ filter (λ msg, role msg = user) added
      = (λ c, userMessage_of (GenAI.message c.2)) <$> calls_of w evs.
Proof.
  revert w. induction evs as [|ev evs IH]; intros w Hw.
  { exists []. by rewrite app_nil_r. }
  rewrite run_cons. simpl.
  destruct (step_messages w ev Hw) as (a1 & Hm1 & Hl1 & Hu1).
  destruct (IH (step w ev)) as (a2 & Hm2 & Hl2 & Hu2);
    [by apply step_resumable|].
  exists (a1 ++ a2). rewrite Hm2, Hm1, <- app_assoc. split; [done|].
  rewrite length_app, filter_app, fmap_app, Hu1, Hu2. split; [lia|done].
Qed.

(** X7. The transcript is append-only. Whatever happens to a mounted
    component, the transcript it had stays as a prefix of the transcript
    it has, each event adds at most one Message, and a transcript that is
    not empty never becomes empty. *)
Theorem run_append_only s evs :
  let w := run {| ui := s; pending := [] |} evs in
  messages s `prefix_of` messages (ui w)
  ∧ (length (messages s) ≤ length (messages (ui w))
     ≤ length (messages s) + length evs)%nat
  ∧ (messages s ≠ [] -> messages (ui w) ≠ []).
Proof.
  intros w.
  destruct (run_messages {| ui := s; pending := [] |} evs)
    as (added & Hm & Hl & _); [by constructor|].
  fold w in Hm. simpl in Hm. rewrite Hm. split; [by exists added|].
  rewrite length_app. split; [lia|].
  intros Hne. by destruct (messages s).
Qed.

(** X8. The [user] Messages a run adds to the transcript are the texts of
    the calls of [sendMessage] it makes, one for one and in order: nothing
    the user sent is missing from the transcript, and no [user] Message
    appears that was not sent. *)
Theorem run_user_turns_are_calls s evs :
  ∃ added,
    messages (ui (run {| ui := s; pending := [] |} evs)) = messages s ++ added
    ∧ filter (λ msg, role msg = user) added
      = (λ c, userMessage_of (GenAI.message c.2))
        <$> calls_of {| ui := s; pending := [] |} evs
    ∧ length (filter (λ msg, role msg = user) added)
      = length (calls_of {| ui := s; pending := [] |} evs).
Proof.
  destruct (run_messages {| ui := s; pending := [] |} evs)
    as (added & Hm & _ & Hu); [by constructor|].
  exists added. split; [done|]. split; [done|].
  by rewrite Hu, length_fmap.
Qed.

(** *** The visibility *)

Lemma step_isOpen w ev :
  resumable w ->
  isOpen (ui (step w ev))
  = if is_ToggleChat ev then negb (isOpen (ui w)) else isOpen (ui w).
Proof.
  unfold resumable. intros Hw. destruct ev; simpl; try done.
  - by destruct (handleSendMessage_cases (ui w))
      as [[-> _]|(chat & _ & _ & _ & ->)].
  - destruct (pending w) as [|k ks]; [done|].
    apply Forall_cons in Hw as [-> _]. by destruct outcome.
  - unfold onerror. by destruct (bool_decide _).
Qed.

(** X9. Only the toggle opens or closes the widget: after any run the
    widget is open or closed as it was if the run has an even number of
    toggles, and the other way round if it has an odd number; sends,
    replies and speech events leave the visibility alone. *)
Theorem run_visibility s evs :
  isOpen (ui (run {| ui := s; pending := [] |} evs))
  = if Nat.even (length (List.filter is_ToggleChat evs))
    then isOpen s else negb (isOpen s).
Proof.
  cut (∀ w, resumable w ->
         isOpen (ui (run w evs))
         = if Nat.even (length (List.filter is_ToggleChat evs))
           then isOpen (ui w) else negb (isOpen (ui w))).
  { intros H. apply (H {| ui := s; pending := [] |}). by constructor. }
  induction evs as [|ev evs IH]; intros w Hw; [done|].
  rewrite run_cons, IH by (by apply step_resumable).
  rewrite step_isOpen by done. simpl.
  destruct (is_ToggleChat ev); [|done].
  cbn [length]. rewrite Nat.even_succ, <- Nat.negb_even.
  destruct (Nat.even _); simpl; by rewrite ?negb_involutive.
Qed.

End RunProperties.

(* ===================================================================== *)
(** ** Further properties: the controls *)
(* ===================================================================== *)

Section ControlProperties.

Context {Chat : Type}.
Implicit Types (s : State Chat) (w : World Chat).

Lemma handleSendMessage_calls s :
  backend_calls (handleSendMessage s) ≠ []
  ↔ sendButton_disabled s = false ∧ is_Some (chatRef s).
Proof.
  unfold sendButton_disabled.
  destruct (handleSendMessage_cases s)
    as [[-> H]|(chat & Hc & Hl & Ht & ->)]; simpl.
  - split; [done|]. intros [Hd [chat Hc]].
    apply orb_false_iff in Hd as [Hl Ht].
    destruct H as [H|[H|H]]; [|congruence..].
    rewrite H in Ht. done.
  - split; [|done]. intros _. rewrite Hl, Hc. split; [|by eexists].
    by destruct (trim (userInput s)).
Qed.

(** X10. The send button is enabled exactly when the handler's guard on
    the input and the loading flag lets a send through: a send goes to
    the backend if and only if the button is enabled and the session
    handle is set, so without a session an enabled button does nothing.
    The Enter key sends under the same conditions, and only without
    Shift; no other key sends or changes the state. *)
Theorem sendButton_agrees_with_guard s :
  (backend_calls (handleSendMessage s) ≠ []
   ↔ sendButton_disabled s = false ∧ is_Some (chatRef s))
  ∧ (sendButton_disabled s = true ∨ chatRef s = None ->
     handleSendMessage s = Resolved s)
  ∧ (∀ key shiftKey,
       backend_calls (onKeyDown key shiftKey s) ≠ []
       ↔ key = js "Enter" ∧ shiftKey = false
         ∧ sendButton_disabled s = false ∧ is_Some (chatRef s))
  ∧ (∀ key shiftKey,
       key ≠ js "Enter" ∨ shiftKey = true ->
       onKeyDown key shiftKey s = Resolved s).
Proof.
  split; [apply handleSendMessage_calls|]. split; [|split].
  - intros [Hd| Hc]; apply handleSendMessage_Resolved; [|auto].
    unfold sendButton_disabled in Hd. apply orb_true_iff in Hd as [Hl|Ht];
      [auto|]. left. by destruct (trim (userInput s)).
  - intros key shiftKey. unfold onKeyDown.
    case_bool_decide as Hkey; destruct shiftKey; simpl;
      rewrite ?handleSendMessage_calls; intuition (done || congruence).
  - intros key shiftKey [Hkey| ->]; unfold onKeyDown.
    + by rewrite bool_decide_eq_false_2.
    + by rewrite andb_false_r.
Qed.

Lemma onresult_nonempty (t : jsstring) s :
  t ≠ [] -> userInput (onresult t s) ≠ [].
Proof.
  unfold onresult. simpl. intros Ht H.
  apply app_eq_nil in H as [_ H]. done.
Qed.

(** X11. Dictating several results in a row, none of them empty, puts
    them into the pending input in order, separated by single spaces,
    after what the input held (and a space, if it held something); the
    transcript and the loading flag are as they were. *)
Theorem dictate_joins (ts : list jsstring) s :
  Forall (λ t, t ≠ []) ts -> ts ≠ [] ->
  userInput (dictate ts s)
  = (if truthy (userInput s) then userInput s ++ js " " else [])
    ++ join_space ts
  ∧ messages (dictate ts s) = messages s
  ∧ isLoading (dictate ts s) = isLoading s.
Proof.
  intros Hts. revert s.
  induction Hts as [|t ts Ht Hts IH]; intros s Hne; [done|]. clear Hne.
  unfold dictate. simpl. fold (dictate ts (onresult t s)).
  destruct ts as [|t' ts]; [done|].
  destruct (IH (onresult t s)) as (IHu & IHm & IHl); [done|].
  rewrite IHu, IHm, IHl. split; [|done].
  pose proof (onresult_nonempty t s Ht) as Hne.
  destruct (userInput (onresult t s)) as [|c u] eqn:Hu; [done|].
  cbn [truthy]. rewrite <- Hu. unfold onresult. simpl.
  by rewrite <- !app_assoc.
Qed.

Lemma run_completed_sends w chat
    (rounds : list (jsstring * Result GenAI.GenerateContentResponse)) :
  pending w = [] -> isLoading (ui w) = false ->
  chatRef (ui w) = Some chat ->
  Forall (λ r, trim r.1 ≠ []) rounds ->
  messages (ui (run w (rounds ≫= completed_send)))
  = messages (ui w)
    ++ (rounds ≫= λ r, [userMessage_of r.1; reply_of r.2]).
Proof.
  intros Hp Hl Hc Hrounds. revert w Hp Hl Hc.
  induction Hrounds as [|[text outcome] rounds Ht _ IH]; intros w Hp Hl Hc.
  { simpl. by rewrite app_nil_r. }
  rewrite !bind_cons, run_app.
  rewrite (run_completed_send _ chat) by done.
  rewrite IH by done. simpl. by rewrite <- app_assoc.
Qed.

Lemma history_of_send (r : jsstring * Result GenAI.GenerateContentResponse) :
  history_of [userMessage_of r.1; reply_of r.2] = turns_of_send r.
Proof. by destruct r as [text [response|e]]. Qed.

(** X12. A session created from the transcript that N completed sends
    leave is seeded with the history of the initial transcript followed,
    for each send in order, by its [user] turn and, if its call
    succeeded, the [model] turn of the reply: a failed send leaves its
    question in the history without an answer. *)
Theorem history_after_sends w
    (rounds : list (jsstring * Result GenAI.GenerateContentResponse)) :
  pending w = [] -> isLoading (ui w) = false -> is_Some (chatRef (ui w)) ->
  Forall (λ r, trim r.1 ≠ []) rounds ->
  history_of (messages (ui (run w (rounds ≫= completed_send))))
  = history_of (messages (ui w)) ++ (rounds ≫= turns_of_send).
Proof.
  intros Hp Hl [chat Hc] Hrounds.
  rewrite (run_completed_sends _ chat) by done.
  rewrite history_of_app. f_equal. clear.
  induction rounds as [|r rounds IH]; [done|].
  rewrite !bind_cons, history_of_app, IH. f_equal.
  apply history_of_send.
Qed.

End ControlProperties.

(* ===================================================================== *)
(** ** The further properties at work *)
(* ===================================================================== *)

(** A second send while the first is in flight changes nothing. *)
Lemma run_one_call_at_a_time_witness :
  step (run {| ui := ready_State; pending := [] |} [Send]) Send
  = run {| ui := ready_State; pending := [] |} [Send]
  ∧ calls_of {| ui := ready_State; pending := [] |} [Send; Send]
    = [(chatParameters (history_of stored_transcript),
        {| GenAI.message := question |})].
Proof.
  split; [|reflexivity].
  apply (run_one_call_at_a_time ready_State [Send] eq_refl). by vm_compute.
Defined.

(** Three events, of which one appends: the stored transcript is kept. *)
Lemma run_append_only_witness :
  messages (ui (run {| ui := ready_State; pending := [] |}
                  [ToggleChat; Send; SpeechError (js "no-speech")]))
  ≠ []
  ∧ messages (ui (run {| ui := ready_State; pending := [] |}
                    [ToggleChat; Send; SpeechError (js "no-speech")]))
    = stored_transcript ++ [userMessage_of question].
Proof.
  split; [|reflexivity].
  by apply (run_append_only ready_State
              [ToggleChat; Send; SpeechError (js "no-speech")]).
Defined.

Lemma run_session_fixed_witness :
  calls_of {| ui := onChange question unmounted_State; pending := [] |}
    [Send; Change (js "Again?"); Send]
  = [].
Proof.
  by apply (run_session_fixed (onChange question unmounted_State)
              [Send; Change (js "Again?"); Send]).
Defined.

Lemma sendButton_agrees_with_guard_witness :
  handleSendMessage blank_State = Resolved blank_State
  ∧ onKeyDown (js "Enter") true ready_State = Resolved ready_State
  ∧ sendButton_disabled (onChange question unmounted_State) = false
  ∧ handleSendMessage (onChange question unmounted_State)
    = Resolved (onChange question unmounted_State).
Proof.
  split; [|split; [|split; [reflexivity|]]].
  - apply (sendButton_agrees_with_guard blank_State). by left.
  - apply (sendButton_agrees_with_guard ready_State). by right.
  - apply (sendButton_agrees_with_guard (onChange question unmounted_State)).
    by right.
Defined.

Lemma dictate_joins_witness :
  userInput (dictate [js "cost"; js "planning"; js "services"] ready_State)
  = js "What services do you offer? cost planning services"
  ∧ userInput (dictate [js "cost"; js "planning"] unmounted_State)
    = js "cost planning".
Proof.
  split.
  - by apply (dictate_joins [js "cost"; js "planning"; js "services"]
                ready_State); repeat constructor.
  - by apply (dictate_joins [js "cost"; js "planning"] unmounted_State);
      repeat constructor.
Defined.

(** A failed send and then an answered one: two [user] turns in a row. *)
Lemma history_after_sends_witness :
  history_of
    (messages
       (ui (run {| ui := ready_State; pending := [] |}
              (completed_send (question, Throw (Error (js "Failed to fetch")))
               ++ completed_send
                    (question, Ok (plain_reply (js "Cost planning.")))))))
  = [turn_of model (js "Hi"); turn_of user question; turn_of user question;
     turn_of model (js "Cost planning.")].
Proof.
  apply (history_after_sends {| ui := ready_State; pending := [] |}
           [(question, Throw (Error (js "Failed to fetch")));
            (question, Ok (plain_reply (js "Cost planning.")))]).
  - reflexivity.
  - reflexivity.
  - by eexists.
  - repeat constructor; by vm_compute.
Defined.
